(** * Malaria incidence disaggregation and dashboard: a shallow embedding

    The repository holds two notebooks.  [malaria_data_disaggregation.ipynb]
    merges population, environmental and land-use tables onto the state
    boundaries, scores every state and splits a national case count over the
    states.  The dashboard notebook answers each filter change with one SQL
    query, three charts, a map layer and three KPI values.

    Both are pandas programs over float columns.  A float is modelled by
    [float64]: every finite value is an exact rational, and the three IEEE
    special values (NaN and the two infinities) are kept, because pandas
    represents a missing cell as NaN and divides by zero without raising.
    Rounding and the sign of zero are not modelled. *)

From Stdlib Require Import Ascii QArith Qcanon Qcabs Lqa.
From stdpp Require Import base numbers list strings gmap sorting.

Open Scope Qc_scope.
Open Scope list_scope.

(** ** Floats *)

Inductive float64 : Type :=
  | Fin (q : Qc)
  | PInf
  | NInf
  | NaN.

#[global] Instance float64_eq_dec : EqDecision float64.
Proof. solve_decision. Defined.

Definition isna (x : float64) : bool :=
  match x with NaN => true | _ => false end.


(** The infinity (or NaN) whose sign is that of a comparison with zero. *)
Definition inf_of (c : comparison) : float64 :=
  match c with Gt => PInf | Lt => NInf | Eq => NaN end.

Definition fopp (x : float64) : float64 :=
  match x with
  | Fin a => Fin (- a)
  | PInf => NInf
  | NInf => PInf
  | NaN => NaN
  end.

Definition fadd (x y : float64) : float64 :=
  match x, y with
  | NaN, _ | _, NaN => NaN
  | Fin a, Fin b => Fin (a + b)
  | PInf, NInf | NInf, PInf => NaN
  | PInf, _ | _, PInf => PInf
  | NInf, _ | _, NInf => NInf
  end.

Definition fsub (x y : float64) : float64 := fadd x (fopp y).

Definition fmul (x y : float64) : float64 :=
  match x, y with
  | NaN, _ | _, NaN => NaN
  | Fin a, Fin b => Fin (a * b)
  | Fin a, PInf | PInf, Fin a => inf_of (a ?= 0)
  | Fin a, NInf | NInf, Fin a => inf_of (CompOpp (a ?= 0))
  | PInf, PInf | NInf, NInf => PInf
  | PInf, NInf | NInf, PInf => NInf
  end.

(** Division never raises on a float column: a zero divisor gives an
    infinity, or NaN for 0/0. *)
Definition fdiv (x y : float64) : float64 :=
  match x, y with
  | NaN, _ | _, NaN => NaN
  | Fin a, Fin b => if decide (b = 0) then inf_of (a ?= 0) else Fin (a / b)
  | Fin _, (PInf | NInf) => Fin 0
  | PInf, Fin b => if decide (b < 0) then NInf else PInf
  | NInf, Fin b => if decide (b < 0) then PInf else NInf
  | (PInf | NInf), (PInf | NInf) => NaN
  end.

Definition fabs (x : float64) : float64 :=
  match x with
  | Fin a => Fin (Qcabs a)
  | PInf | NInf => PInf
  | NaN => NaN
  end.

(** [x < y] on floats; false as soon as one side is NaN. *)
Definition fltb (x y : float64) : bool :=
  match x, y with
  | NaN, _ | _, NaN => false
  | Fin a, Fin b => bool_decide (a < b)
  | NInf, (Fin _ | PInf) => true
  | Fin _, PInf => true
  | _, _ => false
  end.

(** ** pandas Series operations *)

(** [s.clip(lower=lo)]: NaN cells stay NaN. *)
Definition clip_lower (lo x : float64) : float64 :=
  if fltb x lo then lo else x.

(** [s.fillna(d)] on one cell. *)
Definition fillna (d x : float64) : float64 :=
  if isna x then d else x.

Definition dropna (s : list float64) : list float64 :=
  filter (λ x, x ≠ NaN) s.

(** [s.sum()]: NaN cells are skipped, the empty sum is 0. *)
Definition series_sum (s : list float64) : float64 :=
  foldr fadd (Fin 0) (dropna s).

Definition fmax (x y : float64) : float64 := if fltb x y then y else x.

(** [s.max()]: NaN cells are skipped, NaN when nothing is left. *)
Definition series_max (s : list float64) : float64 :=
  match dropna s with
  | [] => NaN
  | x :: xs => foldl fmax x xs
  end.

(** [s.mean()]: the sum of the cells that are not NaN over their number,
    NaN when there is none. *)
Definition series_mean (s : list float64) : float64 :=
  fdiv (series_sum s) (Fin (Qc_of_Z (Z.of_nat (length (dropna s))))).

(** ** pandas merge *)

(** [left.merge(right, on=key, how="left")]: the rows of [left] in their
    order; each one is paired with every row of [right] that has its key, in
    the order of [right], or with no row at all when there is none. *)
Definition merge_left {L R O : Type} (key_l : L → string) (key_r : R → string)
    (join : L → option R → O) (left : list L) (right : list R) : list O :=
  flat_map (λ l,
    match filter (λ r, key_r r = key_l l) right with
    | [] => [join l None]
    | ms => map (λ r, join l (Some r)) ms
    end) left.

(** ** Outcome of a run *)

(** A Python exception, by the name of its class. *)
Inductive exception : Type :=
  | PyException (name : string).

Inductive outcome (A : Type) : Type :=
  | Returned (a : A)
  | Raised (e : exception).
Arguments Returned {A} a.
Arguments Raised {A} e.

#[global] Instance outcome_ret : MRet outcome := λ A, Returned.
#[global] Instance outcome_bind : MBind outcome := λ A B f m,
  match m with
  | Returned a => f a
  | Raised e => Raised e
  end.

Definition AttributeError : exception := PyException "AttributeError".

(** ** The disaggregation notebook *)

Section Disaggregation.

(** The geometry of a state is never inspected by the notebook. *)
Context {Geometry : Type}.

(** *** Step 1: the four tables as they are read

    Only the columns the notebook names are kept: [State] and [geometry] of
    the shapefile, ['State', 'Population'], ['State', 'LULC_Type'] and
    ['State', 'Avg_Temperature', 'Avg_Rainfall']. *)

Record BoundaryRow : Type := {
  State : string;
  geometry : Geometry
}.

Record PopRow : Type := {
  pop_State : string;
  pop_Population : float64
}.

Record EnvRow : Type := {
  env_State : string;
  env_Avg_Temperature : float64;
  env_Avg_Rainfall : float64
}.

Record LulcRow : Type := {
  lulc_State : string;
  LULC_Type : option string
}.

(** *** The rows of [states_gdf] after each cell

    A cell only adds columns, so each row type wraps the one before. *)

Record PopMerged : Type := {
  pm_row :> BoundaryRow;
  Population : float64
}.

Record EnvMerged : Type := {
  em_row :> PopMerged;
  Avg_Temperature : float64;
  Avg_Rainfall : float64
}.

Record Weighted : Type := {
  w_row :> EnvMerged;
  LULC_Weight : float64
}.

Record Scored : Type := {
  s_row :> Weighted;
  Temp_Score : float64;
  Rain_Score : float64;
  Env_Risk : float64
}.

Record Allocated : Type := {
  a_row :> Scored;
  State_Weight : float64;
  Allocated_Cases : float64
}.

(** *** Step 2: merging population and environment onto the boundaries *)

Definition merge_population (states_gdf : list BoundaryRow) (pop_df : list PopRow)
    : list PopMerged :=
  merge_left State pop_State
    (λ l r, {| pm_row := l;
               Population := from_option pop_Population NaN r |})
    states_gdf pop_df.

Definition merge_environment (states_gdf : list PopMerged) (env_df : list EnvRow)
    : list EnvMerged :=
  merge_left (λ l : PopMerged, State l) env_State
    (λ l r, {| em_row := l;
               Avg_Temperature := from_option env_Avg_Temperature NaN r;
               Avg_Rainfall := from_option env_Avg_Rainfall NaN r |})
    states_gdf env_df.

Definition merger (states_gdf : list BoundaryRow) (pop_df : list PopRow)
    (env_df : list EnvRow) : list EnvMerged :=
  merge_environment (merge_population states_gdf pop_df) env_df.

(** *** Step 3: LULC weighting *)

Definition lulc_weight_mapping : gmap string Qc :=
  {[ "Urban" := Q2Qc 1.5;
     "Agricultural" := Q2Qc 1.3;
     "Forested" := Q2Qc 1.0;
     "Water" := Q2Qc 0.5 ]}.

(** [s.map(d)] on one cell: a value that is no key of [d] (or a missing
    value) becomes NaN. *)
Definition series_map (d : gmap string Qc) (v : option string) : float64 :=
  match v ≫= (d !!.) with
  | Some w => Fin w
  | None => NaN
  end.

(** [lulc_gdf[["State", "LULC_Weight"]]] after the weight column is set. *)
Definition lulc_weights (lulc_gdf : list LulcRow) : list (string * float64) :=
  map (λ r, (lulc_State r, series_map lulc_weight_mapping (LULC_Type r))) lulc_gdf.

(** The weight column is set on [lulc_gdf], merged onto the states, and
    filled in place; the fill is taken to reach the frame, as it does in
    pandas without copy-on-write. *)
Definition lulc_weighting (states_gdf : list EnvMerged) (lulc_gdf : list LulcRow)
    : list Weighted :=
  let merged :=
    merge_left (λ l : EnvMerged, State l) fst
      (λ l r, {| w_row := l; LULC_Weight := from_option snd NaN r |})
      states_gdf (lulc_weights lulc_gdf) in
  map (λ r, {| w_row := w_row r;
               LULC_Weight := fillna (Fin (Q2Qc 1.0)) (LULC_Weight r) |}) merged.

(** *** Step 4: environmental risk *)

Definition optimal_temp : Qc := Q2Qc 26.0.
Definition temp_range : Qc := Q2Qc 6.0.

(** The two assignments to [Temp_Score], on one cell. *)
Definition temp_score (T : float64) : float64 :=
  let score := fsub (Fin 1) (fdiv (fabs (fsub T (Fin optimal_temp))) (Fin temp_range)) in
  clip_lower (Fin 0) score.

Definition max_rainfall (states_gdf : list Weighted) : float64 :=
  series_max (map (λ r : Weighted, Avg_Rainfall r) states_gdf).

Definition rain_score (R R_max : float64) : float64 := fdiv R R_max.

Definition risk_scorer (states_gdf : list Weighted) : list Scored :=
  let R_max := max_rainfall states_gdf in
  map (λ r : Weighted,
    let ts := temp_score (Avg_Temperature r) in
    let rs := rain_score (Avg_Rainfall r) R_max in
    {| s_row := r;
       Temp_Score := ts;
       Rain_Score := rs;
       Env_Risk := fmul (fmul (LULC_Weight r) ts) rs |}) states_gdf.

(** *** Step 5: allocation *)

Definition state_weight (r : Scored) : float64 :=
  fmul (Population r) (Env_Risk r).

Definition total_weight (states_gdf : list Scored) : float64 :=
  series_sum (map state_weight states_gdf).

Definition allocator (national_malaria_incidence : Qc) (states_gdf : list Scored)
    : list Allocated :=
  let total := total_weight states_gdf in
  map (λ r : Scored,
    {| a_row := r;
       State_Weight := state_weight r;
       Allocated_Cases :=
         fmul (fdiv (state_weight r) total) (Fin national_malaria_incidence) |})
    states_gdf.

(** *** Step 6: export

    The shapefile keeps every column; the CSV is written from the frame
    with the [geometry] column dropped. *)

Record CsvRow : Type := {
  csv_State : string;
  csv_columns : list (string * float64)
}.

Definition drop_geometry (r : Allocated) : CsvRow :=
  {| csv_State := State r;
     csv_columns :=
       [ ("Population", Population r);
         ("Avg_Temperature", Avg_Temperature r);
         ("Avg_Rainfall", Avg_Rainfall r);
         ("LULC_Weight", LULC_Weight r);
         ("Temp_Score", Temp_Score r);
         ("Rain_Score", Rain_Score r);
         ("Env_Risk", Env_Risk r);
         ("State_Weight", State_Weight r);
         ("Allocated_Cases", Allocated_Cases r) ] |}.

Record Export : Type := {
  shapefile : list Allocated;
  csv : list CsvRow
}.

Definition exporter (states_gdf : list Allocated) : Export :=
  {| shapefile := states_gdf; csv := map drop_geometry states_gdf |}.

(** *** The notebook, top to bottom

    No cell raises on frames of this shape, so the run always returns. *)

Record Inputs : Type := {
  pop_df : list PopRow;
  states_shp : list BoundaryRow;
  lulc_gdf : list LulcRow;
  env_df : list EnvRow
}.

Definition pipeline (inp : Inputs) (national_malaria_incidence : Qc) : list Allocated :=
  let states_gdf := merger (states_shp inp) (pop_df inp) (env_df inp) in
  let states_gdf := lulc_weighting states_gdf (lulc_gdf inp) in
  let states_gdf := risk_scorer states_gdf in
  allocator national_malaria_incidence states_gdf.

Definition notebook (inp : Inputs) (national_malaria_incidence : Qc) : outcome Export :=
  mret (exporter (pipeline inp national_malaria_incidence)).

End Disaggregation.

Arguments BoundaryRow : clear implicits.
Arguments PopMerged : clear implicits.
Arguments EnvMerged : clear implicits.
Arguments Weighted : clear implicits.
Arguments Scored : clear implicits.
Arguments Allocated : clear implicits.
Arguments Export : clear implicits.
Arguments Inputs : clear implicits.

(** ** The dashboard *)

(** One row of the [incidence_data] table, with the columns the callback
    reads.  A NULL number arrives in the frame as NaN. *)
Record IncidenceRow : Type := {
  year : Z;
  state : string;
  date : string;
  rainfall_mm : float64;
  mortality_rate_adjusted : float64;
  incidence_rate_adjusted : float64;
  infection_prevalence_adjusted : float64;
  effective_treatment_adjusted : float64
}.

Inductive cell : Type :=
  | CInt (z : Z)
  | CStr (s : string)
  | CNum (x : float64).

(** [row[name]]: the cell of a column, [None] when the frame has no such
    column (a KeyError in Python). *)
Definition row_get (r : IncidenceRow) (name : string) : option cell :=
  if decide (name = "year") then Some (CInt (year r))
  else if decide (name = "state") then Some (CStr (state r))
  else if decide (name = "date") then Some (CStr (date r))
  else if decide (name = "rainfall(mm)") then Some (CNum (rainfall_mm r))
  else if decide (name = "mortality_rate_adjusted")
    then Some (CNum (mortality_rate_adjusted r))
  else if decide (name = "incidence_rate_adjusted")
    then Some (CNum (incidence_rate_adjusted r))
  else if decide (name = "infection_prevalence_adjusted")
    then Some (CNum (infection_prevalence_adjusted r))
  else if decide (name = "effective_treatment_adjusted")
    then Some (CNum (effective_treatment_adjusted r))
  else None.

(** The values of the indicator dropdown of the layout. *)
Definition indicator_options : list string :=
  [ "mortality_rate_adjusted"; "incidence_rate_adjusted";
    "infection_prevalence_adjusted"; "effective_treatment_adjusted" ].

(** *** The query *)

Inductive sqlval : Type :=
  | SqlInt (z : Z)
  | SqlText (s : string).

#[global] Instance sqlval_eq_dec : EqDecision sqlval.
Proof. solve_decision. Defined.

(** Truth value of the two optional filters: [None], the year 0 and the
    empty string are false. *)
Definition truthy_year (selected_year : option Z) : bool :=
  match selected_year with
  | Some y => bool_decide (y ≠ 0%Z)
  | None => false
  end.

Definition truthy_state (selected_state : option string) : bool :=
  match selected_state with
  | Some s => bool_decide (s ≠ "")
  | None => false
  end.

Definition build_query (selected_year : option Z) (selected_state : option string)
    : string * gmap string sqlval :=
  let query := "SELECT * FROM incidence_data WHERE 1=1" in
  let params : gmap string sqlval := ∅ in
  let '(query, params) :=
    match selected_year with
    | Some y =>
        if truthy_year selected_year
        then (query +:+ " AND year = :year", <["year" := SqlInt y]> params)
        else (query, params)
    | None => (query, params)
    end in
  match selected_state with
  | Some s =>
      if truthy_state selected_state
      then (query +:+ " AND state = :state", <["state" := SqlText s]> params)
      else (query, params)
  | None => (query, params)
  end.

(** *** The database engine

    The engine is outside the repository.  It is modelled for the four
    statements the callback can send: it keeps the rows whose columns equal
    the bound parameters, and it records every statement it is sent. *)

Definition ProgrammingError : exception := PyException "ProgrammingError".
Definition StatementError : exception := PyException "StatementError".
Definition KeyError : exception := PyException "KeyError".
Definition ValueError : exception := PyException "ValueError".

Record Engine : Type := {
  incidence_data : list IncidenceRow;
  statements : list (string * gmap string sqlval)
}.

Definition bound (params : gmap string sqlval) (name : string) : outcome sqlval :=
  match params !! name with
  | Some v => mret v
  | None => Raised StatementError
  end.

Definition where_year (v : sqlval) (rows : list IncidenceRow) : list IncidenceRow :=
  filter (λ r, SqlInt (year r) = v) rows.

Definition where_state (v : sqlval) (rows : list IncidenceRow) : list IncidenceRow :=
  filter (λ r, SqlText (state r) = v) rows.

Definition run_query (rows : list IncidenceRow) (query : string)
    (params : gmap string sqlval) : outcome (list IncidenceRow) :=
  let select := "SELECT * FROM incidence_data WHERE 1=1" in
  if decide (query = select) then mret rows
  else if decide (query = select +:+ " AND year = :year") then
    y ← bound params "year"; mret (where_year y rows)
  else if decide (query = select +:+ " AND state = :state") then
    s ← bound params "state"; mret (where_state s rows)
  else if decide (query = select +:+ " AND year = :year" +:+ " AND state = :state") then
    y ← bound params "year"; s ← bound params "state";
    mret (where_state s (where_year y rows))
  else Raised ProgrammingError.

Definition execute (engine : Engine) (query : string) (params : gmap string sqlval)
    : outcome (list IncidenceRow) * Engine :=
  (run_query (incidence_data engine) query params,
   {| incidence_data := incidence_data engine;
      statements := statements engine ++ [(query, params)] |}).

(** *** The popup label: [selected_indicator.replace('_', ' ').title()] *)

Definition is_lower (c : ascii) : bool :=
  let n := nat_of_ascii c in (97 <=? n)%nat && (n <=? 122)%nat.

Definition is_upper (c : ascii) : bool :=
  let n := nat_of_ascii c in (65 <=? n)%nat && (n <=? 90)%nat.

Definition to_upper (c : ascii) : ascii :=
  if is_lower c then ascii_of_nat (nat_of_ascii c - 32) else c.

Definition to_lower (c : ascii) : ascii :=
  if is_upper c then ascii_of_nat (nat_of_ascii c + 32) else c.

Fixpoint replace_char (old new : ascii) (s : string) : string :=
  match s with
  | EmptyString => EmptyString
  | String c s' =>
      String (if decide (c = old) then new else c) (replace_char old new s')
  end.

Fixpoint title_from (previous_is_cased : bool) (s : string) : string :=
  match s with
  | EmptyString => EmptyString
  | String c s' =>
      String (if previous_is_cased then to_lower c else to_upper c)
             (title_from (is_lower c || is_upper c) s')
  end.

Definition title (s : string) : string := title_from false s.

(** *** The outputs of the callback *)

(** The popup is kept as its three parts; the text joins them as
    [State: <state><br><label>: <value>]. *)
Record Feature : Type := {
  feature_state : string;
  popup_label : string;
  popup_value : cell
}.

Record Figure : Type := {
  fig_kind : string;
  fig_x : string;
  fig_y : option string;
  fig_color : string;
  fig_data : list IncidenceRow
}.

Record Outputs : Type := {
  choropleth : list Feature;
  trend : Figure;
  bar_chart : Figure;
  correlation : Figure;
  kpi1 : float64;
  kpi2 : float64;
  kpi3 : float64
}.

(** One feature of the map layer.  Without a selected indicator the call
    of [replace] raises; a name that is no column raises on [row[...]]. *)
Definition feature (selected_indicator : option string) (row : IncidenceRow)
    : outcome Feature :=
  match selected_indicator with
  | None => Raised AttributeError
  | Some ind =>
      match row_get row ind with
      | None => Raised KeyError
      | Some v =>
          mret {| feature_state := state row;
                  popup_label := title (replace_char "_"%char " "%char ind);
                  popup_value := v |}
      end
  end.

Definition columns : list string :=
  [ "year"; "state"; "date"; "rainfall(mm)"; "mortality_rate_adjusted";
    "incidence_rate_adjusted"; "infection_prevalence_adjusted";
    "effective_treatment_adjusted" ].

(** [px.line], [px.bar] and [px.scatter]: the figure is only described;
    a [y] that is no column of the frame is refused. *)
Definition px (kind : string) (data : list IncidenceRow) (x : string)
    (y : option string) (color : string) : outcome Figure :=
  match y with
  | Some name =>
      if decide (name ∈ columns)
      then mret {| fig_kind := kind; fig_x := x; fig_y := y;
                   fig_color := color; fig_data := data |}
      else Raised ValueError
  | None =>
      mret {| fig_kind := kind; fig_x := x; fig_y := y;
              fig_color := color; fig_data := data |}
  end.

Definition update_dashboard (engine : Engine) (selected_year : option Z)
    (selected_indicator : option string) (selected_state : option string)
    : outcome Outputs * Engine :=
  let '(query, params) := build_query selected_year selected_state in
  let '(result, engine) := execute engine query params in
  (filtered_data ← result;
   features ← mapM (feature selected_indicator) filtered_data;
   trend_figure ← px "line" filtered_data "date" selected_indicator "state";
   bar_chart_figure ← px "bar" filtered_data "state" selected_indicator "state";
   correlation_figure ←
     px "scatter" filtered_data "rainfall(mm)" selected_indicator "state";
   let kpi1 := series_sum (map incidence_rate_adjusted filtered_data) in
   let kpi2 := series_sum (map mortality_rate_adjusted filtered_data) in
   let kpi3 := series_mean (map effective_treatment_adjusted filtered_data) in
   mret {| choropleth := features;
           trend := trend_figure;
           bar_chart := bar_chart_figure;
           correlation := correlation_figure;
           kpi1 := kpi1; kpi2 := kpi2; kpi3 := kpi3 |},
   engine).

(** The rows a filter selection asks for, in the words of the interface:
    those of the selected year and of the selected state, a filter that is
    not set selecting every row. *)
Definition selected (selected_year : option Z) (selected_state : option string)
    (r : IncidenceRow) : Prop :=
  (truthy_year selected_year → selected_year = Some (year r)) ∧
  (truthy_state selected_state → selected_state = Some (state r)).

#[global] Instance selected_dec sy ss r : Decision (selected sy ss r).
Proof. unfold selected. apply _. Defined.

(** ** The contracts, in the words of the specification *)

Definition Qc_max (x y : Qc) : Qc := if decide (x < y) then y else x.

(** [max(0, 1 − |T − O| / ΔT)] with O = 26 and ΔT = 6. *)
Definition temp_score_formula (T : Qc) : Qc :=
  Qc_max 0 (1 - Qcabs (T - Q2Qc 26) / Q2Qc 6).

(** The number of rows of a table that carry a key, and the number of rows
    a left merge writes for a left row that finds [n] of them. *)
Definition matches {R : Type} (key : R → string) (k : string) (right : list R) : nat :=
  length (filter (λ r, key r = k) right).

Definition copies (n : nat) : nat := Nat.max 1 n.




(** [states_gdf] as the scorer and as the allocator receive it. *)
Definition weighted_frame {Geometry : Type} (inp : Inputs Geometry)
    : list (Weighted Geometry) :=
  lulc_weighting (merger (states_shp inp) (pop_df inp) (env_df inp)) (lulc_gdf inp).

Definition scored_frame {Geometry : Type} (inp : Inputs Geometry)
    : list (Scored Geometry) :=
  risk_scorer (weighted_frame inp).

(** The number of output rows that come from one boundary entry. *)
Definition rows_per {Geometry : Type} (inp : Inputs Geometry)
    (b : BoundaryRow Geometry) : nat :=
  (copies (matches pop_State (State b) (pop_df inp)) *
   copies (matches env_State (State b) (env_df inp)) *
   copies (matches lulc_State (State b) (lulc_gdf inp)))%nat.

(** ** Sample data *)

Definition num (q : Q) : float64 := Fin (Q2Qc q).

Definition boundary (name : string) : BoundaryRow string :=
  {| State := name; geometry := "POLYGON " +:+ name |}.

Definition population (name : string) (p : Q) : PopRow :=
  {| pop_State := name; pop_Population := num p |}.

Definition environment (name : string) (t r : Q) : EnvRow :=
  {| env_State := name; env_Avg_Temperature := num t; env_Avg_Rainfall := num r |}.

Definition land_cover (name category : string) : LulcRow :=
  {| lulc_State := name; LULC_Type := Some category |}.

(** Three states: A (population 100, 26 degrees, rainfall 100, forested),
    B (200, 32 degrees, 50, urban) and C (50, 20 degrees, 200, water). *)
Definition three_states : Inputs string :=
  {| pop_df := [population "A" 100; population "B" 200; population "C" 50];
     states_shp := [boundary "A"; boundary "B"; boundary "C"];
     lulc_gdf := [land_cover "A" "Forested"; land_cover "B" "Urban";
                  land_cover "C" "Water"];
     env_df := [environment "A" 26 100; environment "B" 32 50;
                environment "C" 20 200] |}.

Definition three_states_scored : list (Scored string) := scored_frame three_states.





(** Three rows of [incidence_data]. *)
Definition incidence (y : Z) (s : string) (mortality incidence_rate treatment : Q)
    : IncidenceRow :=
  {| year := y; state := s; date := "2010-01-01"; rainfall_mm := num 120;
     mortality_rate_adjusted := num mortality;
     incidence_rate_adjusted := num incidence_rate;
     infection_prevalence_adjusted := NaN;
     effective_treatment_adjusted := num treatment |}.

Definition sample_engine : Engine :=
  {| incidence_data := [ incidence 2010 "Lagos" 1 2 3;
                         incidence 2011 "Lagos" 4 5 6;
                         incidence 2010 "Kano" 7 8 9 ];
     statements := [] |}.

(** ** The filter callback of the dashboard *)

(** One entry of a dropdown: [{"label": x, "value": x}]. *)
Record DropdownOption : Type := {
  label : cell;
  value : cell
}.

(** The two statements of [update_filters], as the engine answers them:
    the values of one column, each once, in ascending order.  The order of
    text is the collation of the database, which is left open. *)
Definition run_distinct (collate : relation string)
    `{∀ x y, Decision (collate x y)} (rows : list IncidenceRow) (query : string)
    : outcome (list cell) :=
  if decide (query = "SELECT DISTINCT year FROM incidence_data ORDER BY year") then
    mret (map CInt (merge_sort Z.le (remove_dups (map year rows))))
  else if decide (query = "SELECT DISTINCT state FROM incidence_data ORDER BY state") then
    mret (map CStr (merge_sort collate (remove_dups (map state rows))))
  else Raised ProgrammingError.

Definition execute_distinct (collate : relation string)
    `{∀ x y, Decision (collate x y)} (engine : Engine) (query : string)
    : outcome (list cell) * Engine :=
  (run_distinct collate (incidence_data engine) query,
   {| incidence_data := incidence_data engine;
      statements := statements engine ++ [(query, ∅)] |}).

Definition dropdown_options (values : list cell) : list DropdownOption :=
  map (λ v, {| label := v; value := v |}) values.

Definition update_filters (collate : relation string)
    `{∀ x y, Decision (collate x y)} (engine : Engine)
    (selected_indicator : option string)
    : outcome (list DropdownOption * list DropdownOption) * Engine :=
  let years_query := "SELECT DISTINCT year FROM incidence_data ORDER BY year" in
  let '(years_result, engine) := execute_distinct collate engine years_query in
  match years_result with
  | Raised e => (Raised e, engine)
  | Returned years =>
      let states_query := "SELECT DISTINCT state FROM incidence_data ORDER BY state" in
      let '(states_result, engine) := execute_distinct collate engine states_query in
      (states ← states_result;
       mret (dropdown_options years, dropdown_options states),
       engine)
  end.

(** ** The same inputs with rainfall in another unit *)







(** A collation for the sample: text compared byte by byte. *)
Definition byte_order : relation string := λ a b, String.leb a b = true.

#[global] Instance byte_order_dec a b : Decision (byte_order a b).
Proof. unfold byte_order. apply _. Defined.

(** * Properties *)

(** ** Floats and Series *)




Lemma fdiv_NaN_r x : fdiv x NaN = NaN.
Proof. by destruct x. Qed.

Lemma fdiv_Fin (a b : Qc) : b ≠ 0 → fdiv (Fin a) (Fin b) = Fin (a / b).
Proof. intros Hb. simpl. by destruct (decide (b = 0)). Qed.

Lemma temp_range_nonzero : temp_range ≠ 0.
Proof. compute_done. Qed.

Lemma dropna_cons_NaN s : dropna (NaN :: s) = dropna s.
Proof. unfold dropna. by rewrite filter_cons_False by (intros H; by apply H). Qed.

Lemma dropna_cons x s : x ≠ NaN → dropna (x :: s) = x :: dropna s.
Proof. intros Hx. unfold dropna. by rewrite filter_cons_True. Qed.


Lemma series_sum_cons_NaN s : series_sum (NaN :: s) = series_sum s.
Proof. unfold series_sum. by rewrite dropna_cons_NaN. Qed.

Lemma series_sum_cons x s : x ≠ NaN → series_sum (x :: s) = fadd x (series_sum s).
Proof. intros Hx. unfold series_sum. by rewrite dropna_cons. Qed.

(** ** The temperature score *)

Lemma temp_score_Fin (T : Qc) :
  temp_score (Fin T) = Fin (temp_score_formula T).
Proof.
  unfold temp_score, temp_score_formula, Qc_max, clip_lower, fsub. simpl.
  destruct (decide (temp_range = 0)) as [H|_]; [by destruct temp_range_nonzero|].
  simpl. unfold optimal_temp, temp_range, Qcminus.
  set (s := 1 + - (Qcabs (T + - Q2Qc 26) / Q2Qc 6)).
  destruct (decide (0 < s)) as [Hpos|Hnpos].
  - rewrite bool_decide_eq_false_2; [done|].
    intros Hneg. exact (Qclt_not_le _ _ Hneg (Qclt_le_weak _ _ Hpos)).
  - case_bool_decide as Hneg; [done|].
    f_equal. apply Qcle_antisym; by apply Qcnot_lt_le.
Qed.

Lemma temp_score_formula_bounds (T : Qc) :
  0 ≤ temp_score_formula T ∧ temp_score_formula T ≤ 1.
Proof.
  unfold temp_score_formula, Qc_max.
  set (d := Qcabs (T - Q2Qc 26) / Q2Qc 6).
  assert (Hd : 0 ≤ d).
  { unfold d, Qcdiv. apply Qcmult_nonneg_nonneg; [apply Qcabs_nonneg|].
    apply Qclt_le_weak, Qcinv_pos. compute_done. }
  destruct (decide (0 < 1 - d)) as [Hpos|_].
  - split; [by apply Qclt_le_weak|].
    apply Qcle_minus_iff. replace (1 + - (1 - d)) with d by ring. done.
  - split; [apply Qcle_refl | compute_done].
Qed.

(** C2: on every temperature the score of the notebook is
    max(0, 1 − |T − 26| / 6); it lies between 0 and 1; it is 1 at 26 degrees,
    0 at 32 degrees, and 0 (clipped from −1) at 38 degrees. *)
Theorem temp_score_contract :
  (∀ T : Qc,
     temp_score (Fin T) = Fin (temp_score_formula T) ∧
     0 ≤ temp_score_formula T ∧ temp_score_formula T ≤ 1) ∧
  temp_score (Fin (Q2Qc 26.0)) = Fin (Q2Qc 1.0) ∧
  temp_score (Fin (Q2Qc 32.0)) = Fin (Q2Qc 0.0) ∧
  temp_score (Fin (Q2Qc 38.0)) = Fin (Q2Qc 0.0) ∧
  1 - Qcabs (Q2Qc 38.0 - Q2Qc 26) / Q2Qc 6 = - 1.
Proof.
  split; [|repeat split; compute_done].
  intros T. split; [apply temp_score_Fin | apply temp_score_formula_bounds].
Qed.

(** ** Allocation *)

Section Allocation.

Context {Geometry : Type}.
Implicit Types (states_gdf : list (Scored Geometry)) (N t : Qc).






End Allocation.

(** The three states of the sample: the whole count goes to A, the only
    state with a positive temperature score. *)
Example three_states_allocation :
  map (λ r : Allocated string, (State r, Env_Risk r, Allocated_Cases r))
      (pipeline three_states (Q2Qc 1000))
  = [("A", num 0.5, num 1000); ("B", num 0, num 0); ("C", num 0, num 0)].
Proof. compute_done. Qed.


(** ** Left merges *)

Close Scope Qc_scope.

Section MergeLeft.

Context {L R O : Type} (key_l : L → string) (key_r : R → string)
        (join : L → option R → O).

Lemma merge_left_nil right : merge_left key_l key_r join [] right = [].
Proof. reflexivity. Qed.

Lemma merge_left_cons l left right :
  merge_left key_l key_r join (l :: left) right =
  merge_left key_l key_r join [l] right ++ merge_left key_l key_r join left right.
Proof. unfold merge_left. simpl. by rewrite app_nil_r. Qed.

(** The rows written for one left row. *)
Lemma merge_left_one l right :
  merge_left key_l key_r join [l] right =
  match filter (λ r, key_r r = key_l l) right with
  | [] => [join l None]
  | ms => map (λ r, join l (Some r)) ms
  end.
Proof. unfold merge_left. simpl. by rewrite app_nil_r. Qed.

Lemma elem_of_merge_left o left right :
  o ∈ merge_left key_l key_r join left right ↔
  ∃ l, l ∈ left ∧
    ((matches key_r (key_l l) right = 0 ∧ o = join l None) ∨
     (∃ r, r ∈ right ∧ key_r r = key_l l ∧ o = join l (Some r))).
Proof.
  induction left as [|l left IH].
  - rewrite merge_left_nil. split; [by intros ?%elem_of_nil|].
    by intros (l & ?%elem_of_nil & _).
  - rewrite merge_left_cons, elem_of_app, IH, merge_left_one. unfold matches.
    split.
    + intros [Ho|(l' & Hl' & Ho)]; [|exists l'; split; [by right|done]].
      exists l. split; [by left|].
      destruct (filter _ right) as [|m ms] eqn:Hf.
      * left. by apply list_elem_of_singleton in Ho.
      * right. apply list_elem_of_fmap in Ho as (r & -> & Hr).
        rewrite <- Hf in Hr. apply list_elem_of_filter in Hr as [Hk Hr]. eauto.
    + intros (l' & Hl' & Ho). apply elem_of_cons in Hl' as [->|Hl']; [|right; eauto].
      left. destruct Ho as [[Hlen ->]|(r & Hr & Hk & ->)].
      * apply nil_length_inv in Hlen. rewrite Hlen. by apply list_elem_of_singleton.
      * assert (Hin : r ∈ filter (λ r, key_r r = key_l l) right)
          by by apply list_elem_of_filter.
        destruct (filter _ right) as [|m ms]; [by apply elem_of_nil in Hin|].
        by apply (list_elem_of_fmap_2 (λ r, join l (Some r))).
Qed.

(** A column that the join copies from the left row keeps the order of
    the left frame, each cell repeated once per row written. *)
Lemma map_merge_left {B : Type} (col : O → B) (col_l : L → B) left right :
  (∀ l r, col (join l r) = col_l l) →
  map col (merge_left key_l key_r join left right) =
  flat_map (λ l, replicate (copies (matches key_r (key_l l) right)) (col_l l)) left.
Proof.
  intros Hcol. induction left as [|l left IH]; [done|].
  rewrite merge_left_cons, map_app, IH, merge_left_one. simpl. f_equal.
  unfold matches. destruct (filter _ right) as [|m ms]; simpl.
  - by rewrite Hcol.
  - rewrite Hcol. f_equal. induction ms as [|m' ms IHms]; [done|].
    simpl. by rewrite Hcol, IHms.
Qed.

End MergeLeft.

Lemma matches_NoDup {R : Type} (key : R → string) (k : string) (right : list R) :
  NoDup (map key right) → copies (matches key k right) = 1.
Proof.
  unfold copies, matches. intros Hnd.
  enough (length (filter (λ r, key r = k) right) ≤ 1) by lia.
  induction right as [|r right IH]; [simpl; lia|].
  apply NoDup_cons in Hnd as [Hr Hnd]. specialize (IH Hnd).
  rewrite filter_cons. destruct (decide (key r = k)) as [Hk|]; [|done].
  simpl. enough (filter (λ r, key r = k) right = []) as -> by (simpl; lia).
  destruct (filter _ right) as [|m ms] eqn:Hf; [done|].
  assert (Hm : m ∈ filter (λ r, key r = k) right) by (rewrite Hf; by left).
  apply list_elem_of_filter in Hm as [Hmk Hm]. destruct Hr.
  rewrite Hk, <- Hmk. by apply list_elem_of_fmap_2.
Qed.

Lemma flat_map_replicate_1 {A : Type} (l : list A) :
  flat_map (λ x, replicate 1 x) l = l.
Proof. induction l as [|x l IH]; [done|]. simpl. f_equal. exact IH. Qed.

Lemma flat_map_replicate_replicate {A B : Type} (f : A → B) (k : A → nat) n (x : A) :
  flat_map (λ x, replicate (k x) (f x)) (replicate n x) = replicate (n * k x) (f x).
Proof.
  induction n as [|n IH]; [done|]. simpl. by rewrite IH, replicate_add.
Qed.

Lemma flat_map_flat_map_replicate {A B : Type} (f : A → B) (n k : A → nat)
    (l : list A) :
  flat_map (λ x, replicate (k x) (f x)) (flat_map (λ x, replicate (n x) x) l) =
  flat_map (λ x, replicate (n x * k x) (f x)) l.
Proof.
  induction l as [|x l IH]; [done|].
  simpl. by rewrite flat_map_app, IH, flat_map_replicate_replicate.
Qed.

Lemma map_flat_map_replicate {A B : Type} (f : A → B) (k : A → nat) (l : list A) :
  map f (flat_map (λ x, replicate (k x) x) l) =
  flat_map (λ x, replicate (k x) (f x)) l.
Proof.
  induction l as [|x l IH]; [done|].
  simpl. by rewrite map_app, IH, fmap_replicate.
Qed.

Lemma flat_map_map {A B C : Type} (g : A → B) (h : B → list C) (l : list A) :
  flat_map h (map g l) = flat_map (λ x, h (g x)) l.
Proof. induction l as [|x l IH]; [done|]. simpl. by rewrite IH. Qed.

(** ** The merger *)

Section Merger.

Context {Geometry : Type}.
Implicit Types (states_shp : list (BoundaryRow Geometry))
               (pop_df : list PopRow) (env_df : list EnvRow).

Lemma merge_population_boundaries states_shp pop_df :
  map pm_row (merge_population states_shp pop_df) =
  flat_map (λ b, replicate (copies (matches pop_State (State b) pop_df)) b) states_shp.
Proof. unfold merge_population. by apply map_merge_left. Qed.

Lemma merge_environment_rows (states_gdf : list (PopMerged Geometry)) env_df :
  map em_row (merge_environment states_gdf env_df) =
  flat_map (λ r : PopMerged Geometry,
    replicate (copies (matches env_State (State r) env_df)) r) states_gdf.
Proof. unfold merge_environment. by apply map_merge_left. Qed.

Lemma merger_boundaries states_shp pop_df env_df :
  map (λ r : EnvMerged Geometry, pm_row r) (merger states_shp pop_df env_df) =
  flat_map (λ b, replicate (copies (matches pop_State (State b) pop_df) *
                            copies (matches env_State (State b) env_df)) b) states_shp.
Proof.
  unfold merger, merge_environment.
  rewrite (map_merge_left _ _ _ (λ r : EnvMerged Geometry, pm_row r) pm_row) by done.
  rewrite <- (flat_map_map pm_row
    (λ b, replicate (copies (matches env_State (State b) env_df)) b)).
  rewrite merge_population_boundaries.
  apply (flat_map_flat_map_replicate id).
Qed.

Lemma merge_population_row states_shp pop_df (r : PopMerged Geometry) :
  r ∈ merge_population states_shp pop_df →
  pm_row r ∈ states_shp ∧
  ((matches pop_State (State r) pop_df = 0 ∧ Population r = NaN) ∨
   (∃ p, p ∈ pop_df ∧ pop_State p = State r ∧ Population r = pop_Population p)).
Proof.
  unfold merge_population. intros (b & Hb & Hr)%elem_of_merge_left.
  destruct Hr as [[Hnone ->]|(p & Hp & Hk & ->)]; simpl; split; eauto.
Qed.

Lemma merge_environment_row (states_gdf : list (PopMerged Geometry)) env_df
    (r : EnvMerged Geometry) :
  r ∈ merge_environment states_gdf env_df →
  em_row r ∈ states_gdf ∧
  ((matches env_State (State r) env_df = 0 ∧
    Avg_Temperature r = NaN ∧ Avg_Rainfall r = NaN) ∨
   (∃ e, e ∈ env_df ∧ env_State e = State r ∧
      Avg_Temperature r = env_Avg_Temperature e ∧
      Avg_Rainfall r = env_Avg_Rainfall e)).
Proof.
  unfold merge_environment. intros (l & Hl & Hr)%elem_of_merge_left.
  destruct Hr as [[Hnone ->]|(e & He & Hk & ->)]; simpl; split; eauto 8.
Qed.

(** C6: the merger left-joins the population and the environmental table
    onto the boundaries.  Every boundary entry is in the output; an output
    row holds the values of a table row with its state key, or nulls when
    the table has none; and the states come in the order of the boundary
    collection, each entry once per row it is joined with (exactly the
    boundary collection when no table repeats a key). *)
Theorem merger_is_left_join states_shp pop_df env_df :
  let out := merger states_shp pop_df env_df in
  (∀ b, b ∈ states_shp → ∃ r : EnvMerged Geometry, r ∈ out ∧ pm_row r = b) ∧
  (∀ r : EnvMerged Geometry, r ∈ out →
     pm_row r ∈ states_shp ∧
     ((matches pop_State (State r) pop_df = 0 ∧ Population r = NaN) ∨
      (∃ p, p ∈ pop_df ∧ pop_State p = State r ∧
         Population r = pop_Population p)) ∧
     ((matches env_State (State r) env_df = 0 ∧
       Avg_Temperature r = NaN ∧ Avg_Rainfall r = NaN) ∨
      (∃ e, e ∈ env_df ∧ env_State e = State r ∧
         Avg_Temperature r = env_Avg_Temperature e ∧
         Avg_Rainfall r = env_Avg_Rainfall e))) ∧
  map (λ r : EnvMerged Geometry, pm_row r) out =
    flat_map (λ b, replicate (copies (matches pop_State (State b) pop_df) *
                              copies (matches env_State (State b) env_df)) b)
             states_shp ∧
  (NoDup (map pop_State pop_df) → NoDup (map env_State env_df) →
   map (λ r : EnvMerged Geometry, pm_row r) out = states_shp).
Proof.
  intros out. unfold out. repeat split.
  - intros b Hb.
    assert (Hin : b ∈ map (λ r : EnvMerged Geometry, pm_row r)
                         (merger states_shp pop_df env_df)).
    { rewrite merger_boundaries. apply list_elem_of_In, in_flat_map.
      exists b. split; [by apply list_elem_of_In|].
      apply list_elem_of_In. unfold copies.
      destruct (Nat.max 1 _ * Nat.max 1 _) eqn:Hn; [lia|]. by left. }
    apply list_elem_of_fmap in Hin as (r & -> & Hr). eauto.
  - apply merge_environment_row in H as [H _].
    by apply merge_population_row in H as [H _].
  - apply merge_environment_row in H as [H _].
    by apply merge_population_row in H as [_ H].
  - by apply merge_environment_row in H as [_ H].
  - apply merger_boundaries.
  - intros Hpop Henv. rewrite merger_boundaries.
    rewrite <- (flat_map_replicate_1 states_shp) at 2.
    apply flat_map_ext. intros b. by rewrite !matches_NoDup.
Qed.

End Merger.

(** ** The stages only add columns *)

Section Frame.

Context {Geometry : Type}.

Lemma filter_key_map {A : Type} (key : A → string) (w : A → float64) k (l : list A) :
  filter (λ p : string * float64, p.1 = k) (map (λ r, (key r, w r)) l) =
  map (λ r, (key r, w r)) (filter (λ r, key r = k) l).
Proof.
  induction l as [|x l IH]; [done|].
  simpl. rewrite !filter_cons. simpl. rewrite IH.
  by destruct (decide (key x = k)).
Qed.

Lemma matches_lulc_weights k (lulc_gdf : list LulcRow) :
  matches fst k (lulc_weights lulc_gdf) = matches lulc_State k lulc_gdf.
Proof. unfold matches, lulc_weights. by rewrite filter_key_map, length_map. Qed.

Lemma lulc_weighting_rows (states_gdf : list (EnvMerged Geometry)) lulc_gdf :
  map w_row (lulc_weighting states_gdf lulc_gdf) =
  flat_map (λ r : EnvMerged Geometry,
    replicate (copies (matches lulc_State (State r) lulc_gdf)) r) states_gdf.
Proof.
  unfold lulc_weighting. rewrite map_map. simpl.
  rewrite (map_merge_left _ _ _ w_row id) by done.
  apply flat_map_ext. intros r. by rewrite matches_lulc_weights.
Qed.

Lemma risk_scorer_rows (states_gdf : list (Weighted Geometry)) :
  map s_row (risk_scorer states_gdf) = states_gdf.
Proof. unfold risk_scorer. rewrite map_map. simpl. apply map_id. Qed.

Lemma allocator_rows N (states_gdf : list (Scored Geometry)) :
  map a_row (allocator N states_gdf) = states_gdf.
Proof. unfold allocator. rewrite map_map. simpl. apply map_id. Qed.

Lemma pipeline_boundaries (inp : Inputs Geometry) N :
  map (λ r : Allocated Geometry, pm_row r) (pipeline inp N) =
  flat_map (λ b, replicate (rows_per inp b) b) (states_shp inp).
Proof.
  unfold pipeline.
  rewrite <- (map_map a_row (λ r : Scored Geometry, pm_row r)), allocator_rows.
  rewrite <- (map_map s_row (λ r : Weighted Geometry, pm_row r)), risk_scorer_rows.
  rewrite <- (map_map w_row (λ r : EnvMerged Geometry, pm_row r)), lulc_weighting_rows.
  rewrite map_flat_map_replicate.
  rewrite <- (flat_map_map (λ r : EnvMerged Geometry, pm_row r)
    (λ b, replicate (copies (matches lulc_State (State b) (lulc_gdf inp))) b)).
  rewrite merger_boundaries.
  rewrite (flat_map_flat_map_replicate id). done.
Qed.

Lemma rows_per_positive (inp : Inputs Geometry) b : rows_per inp b ≠ 0.
Proof. unfold rows_per, copies. lia. Qed.

(** C8: the run returns, and the boundary entries (state and geometry) of
    the exported rows are those of the boundary input, in its order, each
    repeated once per row it was joined with.  So every exported row
    carries the geometry of a boundary entry of its state, and the scorer
    and the allocator only add columns to the rows they receive. *)
Theorem geometry_is_carried_through (inp : Inputs Geometry) (N : Qc) :
  ∃ e, notebook inp N = Returned e ∧
    map (λ r : Allocated Geometry, pm_row r) (shapefile e) =
      flat_map (λ b, replicate (rows_per inp b) b) (states_shp inp) ∧
    (∀ r : Allocated Geometry, r ∈ shapefile e →
       ∃ b, b ∈ states_shp inp ∧ State r = State b ∧ geometry r = geometry b) ∧
    (∀ b, b ∈ states_shp inp →
       ∃ r : Allocated Geometry, r ∈ shapefile e ∧
         State r = State b ∧ geometry r = geometry b) ∧
    map a_row (shapefile e) = scored_frame inp ∧
    map s_row (scored_frame inp) = weighted_frame inp ∧
    map csv_State (csv e) = map (λ r : Allocated Geometry, State r) (shapefile e).
Proof.
  eexists. split; [reflexivity|]. simpl.
  pose proof (pipeline_boundaries inp N) as Hb.
  repeat split.
  - done.
  - intros r Hr. exists (pm_row r). split; [|done].
    assert (Hin : pm_row r ∈ map (λ r : Allocated Geometry, pm_row r) (pipeline inp N))
      by by apply (list_elem_of_fmap_2 (λ r : Allocated Geometry, pm_row r)).
    rewrite Hb in Hin. apply list_elem_of_In, in_flat_map in Hin as (b & Hin & Hrep).
    apply list_elem_of_In, elem_of_replicate_inv in Hrep. rewrite Hrep.
    by apply list_elem_of_In.
  - intros b Hin.
    assert (Hb' : b ∈ map (λ r : Allocated Geometry, pm_row r) (pipeline inp N)).
    { rewrite Hb. apply list_elem_of_In, in_flat_map. exists b.
      split; [by apply list_elem_of_In|].
      apply list_elem_of_In, elem_of_replicate. split; [done|apply rows_per_positive]. }
    apply list_elem_of_fmap in Hb' as (r & -> & Hr). eauto.
  - apply allocator_rows.
  - apply risk_scorer_rows.
  - by rewrite map_map.
Qed.

End Frame.

(** ** Division by a zero aggregate *)

Open Scope Qc_scope.
Open Scope list_scope.


Lemma fmax_notna x y : x ≠ NaN → y ≠ NaN → fmax x y ≠ NaN.
Proof. unfold fmax. by destruct (fltb x y). Qed.


Lemma dropna_notna s : Forall (λ x, x ≠ NaN) (dropna s).
Proof. apply Forall_forall. by intros x [? _]%list_elem_of_filter. Qed.




(** ** Missing values *)




(** ** The run, row by row *)

Section Run.

Context {Geometry : Type}.
Implicit Types (inp : Inputs Geometry) (N : Qc).




Lemma scored_row (states_gdf : list (Weighted Geometry)) (r : Scored Geometry) :
  r ∈ risk_scorer states_gdf →
  s_row r ∈ states_gdf ∧
  Temp_Score r = temp_score (Avg_Temperature r) ∧
  Rain_Score r = fdiv (Avg_Rainfall r) (max_rainfall states_gdf) ∧
  Env_Risk r = fmul (fmul (LULC_Weight r) (Temp_Score r)) (Rain_Score r).
Proof.
  unfold risk_scorer. intros (w & -> & Hw)%list_elem_of_fmap. by simpl.
Qed.

Lemma allocated_row N (states_gdf : list (Scored Geometry)) (r : Allocated Geometry) :
  r ∈ allocator N states_gdf →
  a_row r ∈ states_gdf ∧
  State_Weight r = fmul (Population r) (Env_Risk r) ∧
  Allocated_Cases r =
    fmul (fdiv (State_Weight r) (total_weight states_gdf)) (Fin N).
Proof.
  unfold allocator. intros (w & -> & Hw)%list_elem_of_fmap. by simpl.
Qed.



End Run.

(** ** Degenerate inputs and missing values *)

Section Degenerate.

Context {Geometry : Type}.
Implicit Types (inp : Inputs Geometry) (N : Qc).





End Degenerate.







(** ** The dashboard callback *)





Lemma filter_all {A : Type} (P : A → Prop) `{∀ x, Decision (P x)} (l : list A) :
  (∀ x, P x) → l = filter P l.
Proof.
  intros HP. induction l as [|x l IH]; [done|].
  rewrite filter_cons_True by done. by f_equal.
Qed.

(** The statement the callback builds selects the rows of the selection. *)
Lemma build_query_runs (rows : list IncidenceRow) selected_year selected_state :
  run_query rows (build_query selected_year selected_state).1
                 (build_query selected_year selected_state).2
  = Returned (filter (selected selected_year selected_state) rows).
Proof.
  unfold build_query.
  destruct selected_year as [y|], selected_state as [s|]; simpl;
    repeat case_bool_decide; simpl;
    unfold run_query, where_year, where_state, bound; simpl;
    rewrite ?lookup_insert_eq, ?lookup_insert_ne, ?lookup_insert_eq by done; simpl;
    rewrite ?list_filter_filter; f_equal.
  all: first [ apply list_filter_iff | apply filter_all ]; intros r;
    unfold selected; simpl; repeat case_bool_decide; simpl;
    intuition (simplify_eq; auto).
Qed.

Lemma features_return (ind : string) (rows : list IncidenceRow) :
  ind ∈ indicator_options →
  ∃ features, mapM (feature (Some ind)) rows = Returned features.
Proof.
  intros Hind. induction rows as [|r rows [features IH]]; [by eexists|].
  simpl. rewrite IH.
  assert (Hget : is_Some (row_get r ind)).
  { unfold indicator_options in Hind. set_unfold.
    destruct Hind as [->|[->|[->|[->|[]]]]]; by eexists. }
  destruct Hget as [v Hget]. unfold feature. rewrite Hget. by eexists.
Qed.

Lemma px_returns kind data x (ind : string) color :
  ind ∈ indicator_options →
  px kind data x (Some ind) color =
  Returned {| fig_kind := kind; fig_x := x; fig_y := Some ind;
              fig_color := color; fig_data := data |}.
Proof.
  intros Hind. unfold indicator_options in Hind. set_unfold.
  destruct Hind as [->|[->|[->|[->|[]]]]]; reflexivity.
Qed.

Lemma update_dashboard_statements engine selected_year selected_indicator selected_state :
  statements (update_dashboard engine selected_year selected_indicator selected_state).2
  = statements engine ++ [build_query selected_year selected_state].
Proof.
  unfold update_dashboard.
  by destruct (build_query selected_year selected_state) as [query params].
Qed.

Lemma update_dashboard_returns engine selected_year (ind : string) selected_state :
  ind ∈ indicator_options →
  let filtered := filter (selected selected_year selected_state) (incidence_data engine) in
  ∃ out, (update_dashboard engine selected_year (Some ind) selected_state).1 = Returned out ∧
    fig_data (trend out) = filtered ∧
    fig_y (trend out) = Some ind ∧
    kpi1 out = series_sum (map incidence_rate_adjusted filtered) ∧
    kpi2 out = series_sum (map mortality_rate_adjusted filtered) ∧
    kpi3 out = series_mean (map effective_treatment_adjusted filtered).
Proof.
  intros Hind filtered. unfold update_dashboard.
  pose proof (build_query_runs (incidence_data engine) selected_year selected_state) as Hrun.
  destruct (build_query selected_year selected_state) as [query params].
  unfold execute. cbn [fst snd] in *. rewrite Hrun. fold filtered.
  cbn [mbind outcome_bind].
  destruct (features_return ind filtered Hind) as [features ->].
  cbn [mbind outcome_bind].
  rewrite !px_returns by done.
  cbn [mbind outcome_bind mret outcome_ret].
  eexists. split; [reflexivity|]. by simpl.
Qed.



(** C10: two calls of the callback that differ only in the selected
    indicator send the same statement with the same parameters to the engine,
    both return, they chart the same rows, and their three KPI values are
    equal.  The statement sent does not depend on the indicator even when
    none is selected. *)
Theorem indicator_reaches_neither_query_nor_kpis
    engine selected_year selected_state (ind1 ind2 : string) :
  ind1 ∈ indicator_options →
  ind2 ∈ indicator_options →
  (∀ selected_indicator : option string,
     statements (update_dashboard engine selected_year selected_indicator selected_state).2
     = statements engine ++ [build_query selected_year selected_state]) ∧
  ∃ out1 out2,
    (update_dashboard engine selected_year (Some ind1) selected_state).1 = Returned out1 ∧
    (update_dashboard engine selected_year (Some ind2) selected_state).1 = Returned out2 ∧
    fig_data (trend out1) = fig_data (trend out2) ∧
    kpi1 out1 = kpi1 out2 ∧
    kpi2 out1 = kpi2 out2 ∧
    kpi3 out1 = kpi3 out2 ∧
    fig_y (trend out1) = Some ind1 ∧
    fig_y (trend out2) = Some ind2.
Proof.
  intros Hind1 Hind2. split; [intros; apply update_dashboard_statements|].
  destruct (update_dashboard_returns engine selected_year ind1 selected_state Hind1)
    as (out1 & Hout1 & Hrows1 & Hy1 & Hk1 & Hk2 & Hk3).
  destruct (update_dashboard_returns engine selected_year ind2 selected_state Hind2)
    as (out2 & Hout2 & Hrows2 & Hy2 & Hk1' & Hk2' & Hk3').
  exists out1, out2.
  by rewrite Hrows1, Hrows2, Hk1, Hk2, Hk3, Hk1', Hk2', Hk3'.
Qed.

Lemma indicator_reaches_neither_query_nor_kpis_witness :
  "mortality_rate_adjusted" ∈ indicator_options ∧
  "incidence_rate_adjusted" ∈ indicator_options ∧
  ∃ out1 out2,
    (update_dashboard sample_engine (Some 2010%Z) (Some "mortality_rate_adjusted")
       (Some "Kano")).1 = Returned out1 ∧
    (update_dashboard sample_engine (Some 2010%Z) (Some "incidence_rate_adjusted")
       (Some "Kano")).1 = Returned out2 ∧
    kpi1 out1 = kpi1 out2 ∧ kpi2 out1 = kpi2 out2 ∧ kpi3 out1 = kpi3 out2.
Proof.
  split; [compute_done|]. split; [compute_done|].
  destruct (indicator_reaches_neither_query_nor_kpis sample_engine (Some 2010%Z)
              (Some "Kano") "mortality_rate_adjusted" "incidence_rate_adjusted")
    as [_ (out1 & out2 & H1 & H2 & _ & Hk1 & Hk2 & Hk3 & _)]; [compute_done..|].
  by exists out1, out2.
Defined.

(** Without a selected indicator the callback raises as soon as the
    selection has a row; with one, the indicator names the charted column and
    the popup label. *)
Example cleared_indicator_raises :
  (update_dashboard sample_engine None None None).1 = Raised AttributeError.
Proof. reflexivity. Qed.

Example indicator_names_the_popup :
  match (update_dashboard sample_engine (Some 2011%Z)
           (Some "incidence_rate_adjusted") None).1 with
  | Returned out => map popup_label (choropleth out)
  | Raised _ => []
  end = ["Incidence Rate Adjusted"].
Proof. reflexivity. Qed.

(** * Further properties of the notebook *)

(** Order facts on rationals are sent to [lra] through the underlying
    fractions. *)
Ltac qc_unfold :=
  unfold Qcle, Qclt, Qcdiv, Qcminus, Qcplus, Qcopp, Qcmult, Qcinv, Q2Qc in *;
  cbn [this] in *; rewrite ?Qred_correct in *;
  change (/ 6)%Q with (1 # 6)%Q in *.

Ltac qc_lra := qc_unfold; lra.

Lemma Qc_eq_this (x y : Qc) : x = y ↔ (this x == this y)%Q.
Proof. split; [by intros ->|apply Qc_is_canon]. Qed.

(** ** The window of the temperature score *)

Lemma temp_score_formula_zero (T : Qc) :
  temp_score_formula T = 0 ↔ Q2Qc 6 ≤ Qcabs (T - Q2Qc 26).
Proof.
  unfold temp_score_formula, Qc_max.
  pose proof (Qcabs_nonneg (T - Q2Qc 26)) as Hnn.
  generalize dependent (Qcabs (T - Q2Qc 26)). intros a Hnn.
  destruct (decide (0 < 1 - a / Q2Qc 6)) as [Hpos|Hnpos].
  - rewrite Qc_eq_this. split; intros H; qc_lra.
  - split; [intros _|done]. apply Qcnot_lt_le in Hnpos. qc_lra.
Qed.

Lemma temp_score_formula_antitone (T1 T2 : Qc) :
  Qcabs (T1 - Q2Qc 26) ≤ Qcabs (T2 - Q2Qc 26) →
  temp_score_formula T2 ≤ temp_score_formula T1.
Proof.
  unfold temp_score_formula, Qc_max.
  generalize (Qcabs (T1 - Q2Qc 26)) (Qcabs (T2 - Q2Qc 26)). intros a b Hab.
  destruct (decide (0 < 1 - b / Q2Qc 6)) as [Hb|Hb],
           (decide (0 < 1 - a / Q2Qc 6)) as [Ha|Ha];
    try apply Qcnot_lt_le in Ha; try apply Qcnot_lt_le in Hb; qc_lra.
Qed.

(** X1: the temperature score is symmetric about 26 degrees, it is 0
    exactly at the temperatures 6 degrees or more away from 26, and it never
    grows when the temperature moves away from 26. *)
Theorem temp_score_window :
  (∀ d : Qc, temp_score (Fin (Q2Qc 26 + d)) = temp_score (Fin (Q2Qc 26 - d))) ∧
  (∀ T : Qc, temp_score (Fin T) = Fin 0 ↔ Q2Qc 6 ≤ Qcabs (T - Q2Qc 26)) ∧
  (∀ T1 T2 : Qc,
     Qcabs (T1 - Q2Qc 26) ≤ Qcabs (T2 - Q2Qc 26) →
     ∃ s1 s2, temp_score (Fin T1) = Fin s1 ∧ temp_score (Fin T2) = Fin s2 ∧ s2 ≤ s1).
Proof.
  split; [|split].
  - intros d. rewrite !temp_score_Fin. f_equal. unfold temp_score_formula.
    replace (Q2Qc 26 + d - Q2Qc 26) with d by ring.
    replace (Q2Qc 26 - d - Q2Qc 26) with (- d) by ring.
    by rewrite Qcabs_opp.
  - intros T. rewrite temp_score_Fin, <- temp_score_formula_zero.
    split; [by intros [= ->]|by intros ->].
  - intros T1 T2 H. exists (temp_score_formula T1), (temp_score_formula T2).
    rewrite !temp_score_Fin. by auto using temp_score_formula_antitone.
Qed.

(** ** The largest cell of a column *)

Lemma fltb_irrefl x : fltb x x = false.
Proof.
  destruct x as [a| | |]; simpl; try done.
  apply bool_decide_eq_false_2. intros H. by apply (Qclt_not_eq a a).
Qed.

(** [y ≤ x], [z ≤ y] give [z ≤ x] on floats that are not NaN. *)
Lemma fltb_false_trans x y z :
  y ≠ NaN → fltb x y = false → fltb y z = false → fltb x z = false.
Proof.
  intros Hy. destruct x as [a| | |], y as [b| | |], z as [c| | |]; simpl; try done.
  rewrite !bool_decide_eq_false. intros Hab Hbc Hac.
  apply Qcnot_lt_le in Hab, Hbc.
  exact (Qclt_not_le _ _ Hac (Qcle_trans _ _ _ Hbc Hab)).
Qed.

Lemma fmax_upper x y :
  x ≠ NaN → y ≠ NaN →
  fltb (fmax x y) x = false ∧ fltb (fmax x y) y = false ∧
  (fmax x y = x ∨ fmax x y = y).
Proof.
  intros Hx Hy. unfold fmax. destruct (fltb x y) eqn:Hlt.
  - split; [|split; [apply fltb_irrefl|by right]].
    destruct x as [a| | |], y as [b| | |]; simpl in *; try done.
    apply bool_decide_eq_true in Hlt. apply bool_decide_eq_false_2.
    intros Hba. exact (Qclt_not_le _ _ Hba (Qclt_le_weak _ _ Hlt)).
  - split; [apply fltb_irrefl|]. split; [done|by left].
Qed.

Lemma foldl_fmax_upper xs acc :
  acc ≠ NaN → Forall (λ x, x ≠ NaN) xs →
  foldl fmax acc xs ≠ NaN ∧
  fltb (foldl fmax acc xs) acc = false ∧
  Forall (λ x, fltb (foldl fmax acc xs) x = false) xs ∧
  foldl fmax acc xs ∈ acc :: xs.
Proof.
  revert acc. induction xs as [|x xs IH]; intros acc Hacc Hxs; simpl.
  - split; [done|]. split; [apply fltb_irrefl|]. split; [done|by left].
  - apply Forall_cons in Hxs as [Hx Hxs].
    destruct (fmax_upper acc x Hacc Hx) as (Hl & Hr & Hsel).
    destruct (IH (fmax acc x) (fmax_notna _ _ Hacc Hx) Hxs) as (Hna & Hm & Hall & Hin).
    split; [done|]. split; [|split].
    + exact (fltb_false_trans _ _ _ (fmax_notna _ _ Hacc Hx) Hm Hl).
    + constructor; [|done].
      exact (fltb_false_trans _ _ _ (fmax_notna _ _ Hacc Hx) Hm Hr).
    + apply elem_of_cons in Hin as [->|Hin].
      * destruct Hsel as [-> | ->]; [by left|by right; left].
      * by right; right.
Qed.

(** A maximum that is a number is a cell of the column, and no cell
    exceeds it. *)
Lemma series_max_Fin s (m : Qc) :
  series_max s = Fin m →
  Fin m ∈ s ∧ Forall (λ x, x = NaN ∨ x = NInf ∨ ∃ q, x = Fin q ∧ q ≤ m) s.
Proof.
  unfold series_max. intros Hmax.
  pose proof (dropna_notna s) as Hnotna.
  destruct (dropna s) as [|x xs] eqn:Hdrop; [done|].
  apply Forall_cons in Hnotna as [Hx Hxs].
  destruct (foldl_fmax_upper xs x Hx Hxs) as (_ & Hhead & Htail & Hin).
  rewrite Hmax in Hhead, Htail, Hin.
  assert (Hall : Forall (λ y, fltb (Fin m) y = false) (x :: xs)) by by constructor.
  rewrite <- Hdrop in Hall, Hin. split.
  - by apply list_elem_of_filter in Hin as [_ ?].
  - apply Forall_forall. intros y Hy.
    destruct (decide (y = NaN)) as [|Hna]; [by left|right].
    rewrite Forall_forall in Hall.
    assert (Hle : fltb (Fin m) y = false) by by apply Hall, list_elem_of_filter.
    destruct y as [q| | |]; simpl in Hle; [|done|by left|done].
    right. exists q. split; [done|].
    apply bool_decide_eq_false in Hle. by apply Qcnot_lt_le.
Qed.

(** ** Rainfall score, land-cover weight and risk *)

Section Scores.

Context {Geometry : Type}.
Implicit Types (inp : Inputs Geometry) (N : Qc).

Lemma Qcdiv_le_1 (q m : Qc) : 0 < m → q ≤ m → q / m ≤ 1.
Proof.
  intros Hm Hq. rewrite <- (Qcmult_inv_r m) by (intros ->; by apply (Qclt_not_eq 0 0)).
  apply Qcmult_le_compat_r; [done|]. by apply Qclt_le_weak, Qcinv_pos.
Qed.

Lemma Qcdiv_nonneg (q m : Qc) : 0 < m → 0 ≤ q → 0 ≤ q / m.
Proof.
  intros Hm Hq. apply Qcmult_nonneg_nonneg; [done|]. by apply Qclt_le_weak, Qcinv_pos.
Qed.

Lemma Qclt_nonzero (m : Qc) : 0 < m → m ≠ 0.
Proof. intros Hm ->. by apply (Qclt_not_eq 0 0). Qed.

Lemma rain_score_of_row (states_gdf : list (Weighted Geometry)) (m : Qc)
    (r : Scored Geometry) (q : Qc) :
  max_rainfall states_gdf = Fin m → 0 < m →
  r ∈ risk_scorer states_gdf → Avg_Rainfall r = Fin q →
  Rain_Score r = Fin (q / m) ∧ q ≤ m.
Proof.
  intros Hmax Hm Hr Hq.
  apply scored_row in Hr as (Hin & _ & Hrs & _).
  rewrite Hmax, Hq, fdiv_Fin in Hrs by by apply Qclt_nonzero.
  split; [done|].
  apply series_max_Fin in Hmax as [_ Hall]. rewrite Forall_forall in Hall.
  destruct (Hall (Fin q)) as [?|[?|(q' & [= <-] & Hle)]]; try done.
  rewrite <- Hq. by apply (list_elem_of_fmap_2 (λ r : Weighted Geometry, Avg_Rainfall r)).
Qed.

(** X2: when the largest rainfall is a positive number, the Rain_Score of a
    state is its rainfall over that maximum, at most 1 and at least 0 for a
    rainfall that is not negative, and a state with the largest rainfall has
    Rain_Score 1. *)
Theorem rain_score_is_normalised (states_gdf : list (Weighted Geometry)) (m : Qc) :
  max_rainfall states_gdf = Fin m →
  0 < m →
  Forall (λ r : Scored Geometry,
            ∀ q, Avg_Rainfall r = Fin q →
              Rain_Score r = Fin (q / m) ∧ q / m ≤ 1 ∧ (0 ≤ q → 0 ≤ q / m))
         (risk_scorer states_gdf) ∧
  Exists (λ r : Scored Geometry, Avg_Rainfall r = Fin m ∧ Rain_Score r = Fin 1)
         (risk_scorer states_gdf).
Proof.
  intros Hmax Hm. split.
  - apply Forall_forall. intros r Hr q Hq.
    destruct (rain_score_of_row states_gdf m r q Hmax Hm Hr Hq) as [Hrs Hle].
    split; [done|]. split; [by apply Qcdiv_le_1|by apply Qcdiv_nonneg].
  - pose proof Hmax as [Hin _]%series_max_Fin.
    apply list_elem_of_fmap in Hin as (w & Hw & Hin).
    apply Exists_exists.
    set (f := λ r : Weighted Geometry,
      {| s_row := r;
         Temp_Score := temp_score (Avg_Temperature r);
         Rain_Score := rain_score (Avg_Rainfall r) (max_rainfall states_gdf);
         Env_Risk := fmul (fmul (LULC_Weight r) (temp_score (Avg_Temperature r)))
                          (rain_score (Avg_Rainfall r) (max_rainfall states_gdf)) |}).
    exists (f w). split; [by apply (list_elem_of_fmap_2 f)|].
    simpl. split; [done|]. unfold rain_score.
    rewrite <- Hw, Hmax, fdiv_Fin by by apply Qclt_nonzero.
    f_equal. by apply Qcmult_inv_r, Qclt_nonzero.
Qed.







End Scores.

Lemma rain_score_is_normalised_witness :
  max_rainfall (weighted_frame three_states) = Fin (Q2Qc 200) ∧
  0 < Q2Qc 200 ∧
  Exists (λ r : Scored string, Avg_Rainfall r = Fin (Q2Qc 200) ∧ Rain_Score r = Fin 1)
         (risk_scorer (weighted_frame three_states)).
Proof.
  split; [compute_done|]. split; [compute_done|].
  apply (rain_score_is_normalised (weighted_frame three_states) (Q2Qc 200)); compute_done.
Defined.


(** ** Shares of the national count *)

Section Shares.

Context {Geometry : Type}.
Implicit Types (inp : Inputs Geometry) (N : Qc).

(** A term of a sum of numbers that are not negative is at most the sum. *)
Lemma series_sum_nonneg_upper (s : list float64) (t : Qc) :
  Forall (λ w, w = NaN ∨ ∃ q, w = Fin q ∧ 0 ≤ q) s →
  series_sum s = Fin t →
  0 ≤ t ∧ Forall (λ w, ∀ q, w = Fin q → q ≤ t) s.
Proof.
  intros Hs. revert t. induction Hs as [|w s Hw _ IH]; intros t Hsum.
  - injection Hsum as <-. split; [apply Qcle_refl|constructor].
  - destruct Hw as [->|(a & -> & Ha)].
    + rewrite series_sum_cons_NaN in Hsum. destruct (IH t Hsum) as [Ht Hall].
      split; [done|]. by constructor.
    + rewrite series_sum_cons in Hsum by done.
      destruct (series_sum s) as [b| | |] eqn:Hb; try discriminate.
      injection Hsum as <-. destruct (IH b eq_refl) as [Hb0 Hall].
      assert (Ha' : a ≤ a + b).
      { rewrite <- (Qcplus_0_r a) at 1. by apply Qcplus_le_mono_l. }
      assert (Hb' : b ≤ a + b).
      { rewrite <- (Qcplus_0_l b) at 1. by apply Qcplus_le_mono_r. }
      split; [by apply Qcle_trans with a|].
      constructor; [by intros q [= <-]|].
      eapply Forall_impl; [exact Hall|]. simpl. intros w Hw' q Hq.
      apply Qcle_trans with b; auto.
Qed.

(** X5: when no state weight is negative and the total weight is a positive
    number, every state is allocated a share of N between 0 and N, or NaN
    when its weight is missing. *)
Theorem allocation_is_a_share N (states_gdf : list (Scored Geometry)) (t : Qc) :
  total_weight states_gdf = Fin t →
  0 < t →
  0 ≤ N →
  Forall (λ w, w = NaN ∨ ∃ q, w = Fin q ∧ 0 ≤ q) (map state_weight states_gdf) →
  Forall (λ r : Allocated Geometry,
            (State_Weight r = NaN ∧ Allocated_Cases r = NaN) ∨
            (∃ a, Allocated_Cases r = Fin a ∧ 0 ≤ a ∧ a ≤ N))
         (allocator N states_gdf).
Proof.
  intros Htotal Ht HN Hnonneg.
  destruct (series_sum_nonneg_upper _ t Hnonneg Htotal) as [_ Hupper].
  rewrite Forall_forall in Hnonneg, Hupper.
  apply Forall_forall. intros r Hr.
  apply allocated_row in Hr as (Hin & Hsw & Hcases).
  assert (Hw : state_weight (a_row r) ∈ map state_weight states_gdf)
    by by apply (list_elem_of_fmap_2 state_weight).
  change (state_weight (a_row r)) with (fmul (Population r) (Env_Risk r)) in Hw.
  rewrite <- Hsw in Hw. rewrite Htotal in Hcases.
  destruct (Hnonneg _ Hw) as [Hna|(q & Hq & Hq0)].
  - left. by rewrite Hcases, Hna.
  - right. rewrite Hq, fdiv_Fin in Hcases by by apply Qclt_nonzero.
    eexists. split; [exact Hcases|].
    assert (Hle : q ≤ t) by by apply (Hupper _ Hw).
    split.
    + apply Qcmult_nonneg_nonneg; [by apply Qcdiv_nonneg|done].
    + rewrite <- (Qcmult_1_l N) at 2.
      apply Qcmult_le_compat_r; [by apply Qcdiv_le_1|done].
Qed.


(** X7: when no table repeats a state key, the run writes exactly one row
    per boundary entry, in the order of the boundary collection. *)
Theorem unique_keys_give_one_row_per_state inp N :
  NoDup (map pop_State (pop_df inp)) →
  NoDup (map env_State (env_df inp)) →
  NoDup (map lulc_State (lulc_gdf inp)) →
  map (λ r : Allocated Geometry, pm_row r) (pipeline inp N) = states_shp inp ∧
  length (pipeline inp N) = length (states_shp inp).
Proof.
  intros Hpop Henv Hlulc.
  assert (Hrows : map (λ r : Allocated Geometry, pm_row r) (pipeline inp N)
                  = states_shp inp).
  { rewrite pipeline_boundaries.
    rewrite <- (flat_map_replicate_1 (states_shp inp)) at 2.
    apply flat_map_ext. intros b. unfold rows_per. by rewrite !matches_NoDup. }
  split; [done|]. by rewrite <- Hrows, length_map.
Qed.

End Shares.

Lemma allocation_is_a_share_witness :
  total_weight three_states_scored = Fin (Q2Qc 50) ∧
  0 < Q2Qc 50 ∧
  0 ≤ Q2Qc 1000 ∧
  Forall (λ w, w = NaN ∨ ∃ q, w = Fin q ∧ 0 ≤ q) (map state_weight three_states_scored) ∧
  Forall (λ r : Allocated string,
            (State_Weight r = NaN ∧ Allocated_Cases r = NaN) ∨
            (∃ a, Allocated_Cases r = Fin a ∧ 0 ≤ a ∧ a ≤ Q2Qc 1000))
         (allocator (Q2Qc 1000) three_states_scored).
Proof.
  assert (Hnonneg : Forall (λ w, w = NaN ∨ ∃ q, w = Fin q ∧ 0 ≤ q)
                           (map state_weight three_states_scored)).
  { assert (map state_weight three_states_scored = [num 50; num 0; num 0]) as ->
      by compute_done.
    repeat (apply Forall_cons_2;
              [right; eexists; split; [reflexivity|compute_done]|]).
    apply Forall_nil_2. }
  split; [compute_done|]. split; [compute_done|]. split; [compute_done|].
  split; [done|].
  apply (allocation_is_a_share (Q2Qc 1000) three_states_scored (Q2Qc 50));
    [compute_done..|done].
Defined.


Lemma unique_keys_give_one_row_per_state_witness :
  NoDup (map pop_State (pop_df three_states)) ∧
  NoDup (map env_State (env_df three_states)) ∧
  NoDup (map lulc_State (lulc_gdf three_states)) ∧
  length (pipeline three_states (Q2Qc 1000)) = 3%nat.
Proof.
  assert (H1 : NoDup (map pop_State (pop_df three_states))) by compute_done.
  assert (H2 : NoDup (map env_State (env_df three_states))) by compute_done.
  assert (H3 : NoDup (map lulc_State (lulc_gdf three_states))) by compute_done.
  split; [done|]. split; [done|]. split; [done|].
  by destruct (unique_keys_give_one_row_per_state three_states (Q2Qc 1000) H1 H2 H3)
    as [_ ->].
Defined.

(** ** Rainfall in another unit *)

Section Rescale.

Context {Geometry : Type}.
Variable c : Qc.
Hypothesis c_positive : 0 < c.





















End Rescale.


(** * Further properties of the dashboard *)

Close Scope Qc_scope.

(** ** The statement that is built *)

(** X9: whatever year and state are selected, the statement text is one of
    four fixed texts; the selected values only travel as the bound parameters
    [year] and [state], each present exactly when its filter is set. *)
Theorem query_text_is_fixed (selected_year : option Z) (selected_state : option string) :
  (build_query selected_year selected_state).1 ∈
    [ "SELECT * FROM incidence_data WHERE 1=1";
      "SELECT * FROM incidence_data WHERE 1=1 AND year = :year";
      "SELECT * FROM incidence_data WHERE 1=1 AND state = :state";
      "SELECT * FROM incidence_data WHERE 1=1 AND year = :year AND state = :state" ] ∧
  (build_query selected_year selected_state).2 !! "year" =
    (if truthy_year selected_year then SqlInt <$> selected_year else None) ∧
  (build_query selected_year selected_state).2 !! "state" =
    (if truthy_state selected_state then SqlText <$> selected_state else None) ∧
  (∀ name, name ≠ "year" → name ≠ "state" →
     (build_query selected_year selected_state).2 !! name = None).
Proof.
  unfold build_query.
  destruct selected_year as [y|], selected_state as [s|]; simpl;
    repeat case_bool_decide; simpl;
    (split; [set_solver|]); (split; [by simplify_map_eq|]);
    (split; [by simplify_map_eq|]); intros name Hy Hs; by simplify_map_eq.
Qed.

Lemma build_query_falsy_year selected_state :
  build_query (Some 0%Z) selected_state = build_query None selected_state.
Proof. reflexivity. Qed.

Lemma build_query_falsy_state selected_year :
  build_query selected_year (Some "") = build_query selected_year None.
Proof. unfold build_query. by destruct selected_year. Qed.

(** X10: the year 0 and the empty state name count as no selection: the
    callback sends the same statement and returns the same outputs as with the
    filter left empty, so it selects the rows of every year, or of every
    state. *)
Theorem falsy_selection_is_no_filter engine (selected_indicator : option string)
    (selected_year : option Z) (selected_state : option string) :
  update_dashboard engine (Some 0%Z) selected_indicator selected_state =
    update_dashboard engine None selected_indicator selected_state ∧
  update_dashboard engine selected_year selected_indicator (Some "") =
    update_dashboard engine selected_year selected_indicator None ∧
  filter (selected (Some 0%Z) (Some "")) (incidence_data engine) = incidence_data engine.
Proof.
  split; [|split].
  - unfold update_dashboard. by rewrite build_query_falsy_year.
  - unfold update_dashboard. by rewrite build_query_falsy_state.
  - symmetry. apply filter_all. intros r. by split.
Qed.

(** ** Errors of the callback *)

Lemma update_dashboard_outcome engine selected_year selected_indicator selected_state :
  (update_dashboard engine selected_year selected_indicator selected_state).1 =
  (let filtered_data :=
     filter (selected selected_year selected_state) (incidence_data engine) in
   features ← mapM (feature selected_indicator) filtered_data;
   trend_figure ← px "line" filtered_data "date" selected_indicator "state";
   bar_chart_figure ← px "bar" filtered_data "state" selected_indicator "state";
   correlation_figure ←
     px "scatter" filtered_data "rainfall(mm)" selected_indicator "state";
   mret {| choropleth := features;
           trend := trend_figure;
           bar_chart := bar_chart_figure;
           correlation := correlation_figure;
           kpi1 := series_sum (map incidence_rate_adjusted filtered_data);
           kpi2 := series_sum (map mortality_rate_adjusted filtered_data);
           kpi3 := series_mean (map effective_treatment_adjusted filtered_data) |}).
Proof.
  unfold update_dashboard.
  pose proof (build_query_runs (incidence_data engine) selected_year selected_state) as Hrun.
  destruct (build_query selected_year selected_state) as [query params].
  unfold execute. cbn [fst snd] in *. by rewrite Hrun.
Qed.

(** X11: when the selection holds at least one row, a callback without a
    selected indicator raises AttributeError, and a callback whose indicator
    is not a column of the table raises KeyError; no output is produced. *)
Theorem indicator_errors engine (selected_year : option Z) (selected_state : option string) :
  filter (selected selected_year selected_state) (incidence_data engine) ≠ [] →
  (update_dashboard engine selected_year None selected_state).1 = Raised AttributeError ∧
  (∀ name : string, name ∉ columns →
     (update_dashboard engine selected_year (Some name) selected_state).1 = Raised KeyError).
Proof.
  intros Hrows. split; [|intros name Hname]; rewrite update_dashboard_outcome;
    destruct (filter _ (incidence_data engine)) as [|r rows]; try done.
  assert (Hget : row_get r name = None).
  { unfold row_get, columns in *. repeat case_decide; set_solver. }
  cbn zeta. cbn [mapM]. unfold feature. by rewrite Hget.
Qed.

Lemma indicator_errors_witness :
  filter (selected None None) (incidence_data sample_engine) ≠ [] ∧
  (update_dashboard sample_engine None None None).1 = Raised AttributeError ∧
  (update_dashboard sample_engine None (Some "cases") None).1 = Raised KeyError.
Proof.
  assert (Hrows : filter (selected None None) (incidence_data sample_engine) ≠ [])
    by compute_done.
  split; [done|].
  destruct (indicator_errors sample_engine None None Hrows) as [Hnone Hname].
  split; [done|]. apply Hname. compute_done.
Defined.

(** X12: when no row is selected, a callback with an indicator of the
    dropdown returns an empty map layer and charts without rows, the two sum
    KPIs are 0 and the mean KPI is NaN. *)
Theorem empty_selection engine (selected_year : option Z) (ind : string)
    (selected_state : option string) :
  ind ∈ indicator_options →
  filter (selected selected_year selected_state) (incidence_data engine) = [] →
  ∃ out,
    (update_dashboard engine selected_year (Some ind) selected_state).1 = Returned out ∧
    choropleth out = [] ∧
    fig_data (trend out) = [] ∧
    fig_data (bar_chart out) = [] ∧
    fig_data (correlation out) = [] ∧
    kpi1 out = Fin (Q2Qc 0) ∧
    kpi2 out = Fin (Q2Qc 0) ∧
    kpi3 out = NaN.
Proof.
  intros Hind Hrows. rewrite update_dashboard_outcome, Hrows. cbn zeta.
  cbn [mapM mbind outcome_bind mret outcome_ret]. rewrite !px_returns by done.
  cbn [mbind outcome_bind mret outcome_ret]. eexists. split; [reflexivity|].
  by cbn.
Qed.

Lemma empty_selection_witness :
  "mortality_rate_adjusted" ∈ indicator_options ∧
  filter (selected (Some 1999%Z) None) (incidence_data sample_engine) = [] ∧
  ∃ out,
    (update_dashboard sample_engine (Some 1999%Z) (Some "mortality_rate_adjusted") None).1
      = Returned out ∧
    kpi1 out = Fin (Q2Qc 0) ∧ kpi3 out = NaN.
Proof.
  split; [compute_done|]. split; [reflexivity|].
  destruct (empty_selection sample_engine (Some 1999%Z) "mortality_rate_adjusted" None)
    as (out & Hout & _ & _ & _ & _ & Hk1 & _ & Hk3); [compute_done|reflexivity|].
  by exists out.
Defined.

(** ** The map layer *)

Lemma mapM_cons {A B : Type} (f : A → outcome B) (x : A) (l : list A) :
  mapM f (x :: l) = y ← f x; k ← mapM f l; mret (y :: k).
Proof. reflexivity. Qed.

Lemma features_of_rows (ind : string) (rows : list IncidenceRow) features :
  mapM (feature (Some ind)) rows = Returned features →
  map feature_state features = map state rows ∧
  map (λ f, Some (popup_value f)) features = map (λ r, row_get r ind) rows ∧
  Forall (λ f, popup_label f = title (replace_char "_"%char " "%char ind)) features.
Proof.
  revert features. induction rows as [|r rows IH]; intros features Hfs.
  - injection Hfs as <-. by repeat split.
  - rewrite mapM_cons in Hfs.
    destruct (feature (Some ind) r) as [f|e] eqn:Hf; [|done].
    destruct (mapM (feature (Some ind)) rows) as [fs|e] eqn:Hrest; [|done].
    cbn [mbind outcome_bind mret outcome_ret] in Hfs. injection Hfs as <-.
    destruct (IH fs eq_refl) as (Hstates & Hvalues & Hlabels).
    unfold feature in Hf. destruct (row_get r ind) as [v|] eqn:Hget; [|done].
    injection Hf as <-. cbn. rewrite Hstates, Hvalues, Hget.
    repeat split. by constructor.
Qed.

(** X13: with an indicator of the dropdown the map layer has one feature
    per selected row, in the order of the rows: the feature carries the state
    of its row, the popup shows the row's value of the selected column, and
    every popup has the same label, the indicator name in title case. *)
Theorem one_feature_per_row engine (selected_year : option Z) (ind : string)
    (selected_state : option string) :
  ind ∈ indicator_options →
  let filtered := filter (selected selected_year selected_state) (incidence_data engine) in
  ∃ out,
    (update_dashboard engine selected_year (Some ind) selected_state).1 = Returned out ∧
    map feature_state (choropleth out) = map state filtered ∧
    map (λ f, Some (popup_value f)) (choropleth out) = map (λ r, row_get r ind) filtered ∧
    Forall (λ f, popup_label f = title (replace_char "_"%char " "%char ind))
           (choropleth out).
Proof.
  intros Hind filtered. rewrite update_dashboard_outcome. cbn zeta. fold filtered.
  destruct (features_return ind filtered Hind) as [features Hfs]. rewrite Hfs.
  cbn [mbind outcome_bind mret outcome_ret]. rewrite !px_returns by done.
  cbn [mbind outcome_bind mret outcome_ret]. eexists. split; [reflexivity|].
  cbn [choropleth]. by apply features_of_rows.
Qed.

Lemma one_feature_per_row_witness :
  "incidence_rate_adjusted" ∈ indicator_options ∧
  ∃ out,
    (update_dashboard sample_engine (Some 2010%Z) (Some "incidence_rate_adjusted") None).1
      = Returned out ∧
    map feature_state (choropleth out) = ["Lagos"; "Kano"] ∧
    map (λ f, Some (popup_value f)) (choropleth out)
      = [Some (CNum (num 2)); Some (CNum (num 8))].
Proof.
  split; [compute_done|].
  destruct (one_feature_per_row sample_engine (Some 2010%Z) "incidence_rate_adjusted" None)
    as (out & Hout & Hstates & Hvalues & _); [compute_done|].
  exists out. split; [done|]. split; [done|]. by rewrite Hvalues.
Defined.

(** ** The filter callback *)

Lemma StronglySorted_le_lt (l : list Z) :
  StronglySorted Z.le l → NoDup l → StronglySorted Z.lt l.
Proof.
  induction 1 as [|x l Hl IH Hx]; intros Hnd; [constructor|].
  apply NoDup_cons in Hnd as [Hnotin Hnd].
  constructor; [by apply IH|].
  rewrite Forall_forall in Hx. apply Forall_forall. intros y Hy.
  specialize (Hx y Hy). assert (x ≠ y) by (intros ->; done). lia.
Qed.

Section Filters.

Context (collate : relation string) `{∀ x y, Decision (collate x y)}.

Lemma distinct_years_sorted (rows : list IncidenceRow) :
  let ys := merge_sort Z.le (remove_dups (map year rows)) in
  StronglySorted Z.lt ys ∧ ∀ y, y ∈ ys ↔ y ∈ map year rows.
Proof.
  intros ys. split.
  - apply StronglySorted_le_lt; [apply StronglySorted_merge_sort; apply _|].
    unfold ys. rewrite merge_sort_Permutation. apply NoDup_remove_dups.
  - intros y. unfold ys. by rewrite merge_sort_Permutation, elem_of_remove_dups.
Qed.

Lemma distinct_states_sorted (rows : list IncidenceRow) :
  let ss := merge_sort collate (remove_dups (map state rows)) in
  NoDup ss ∧ (∀ s, s ∈ ss ↔ s ∈ map state rows) ∧
  (Total collate → Sorted collate ss).
Proof.
  intros ss. split; [|split].
  - unfold ss. rewrite merge_sort_Permutation. apply NoDup_remove_dups.
  - intros s. unfold ss. by rewrite merge_sort_Permutation, elem_of_remove_dups.
  - intros Htotal. by apply Sorted_merge_sort.
Qed.

Lemma update_filters_unfold engine (selected_indicator : option string) :
  update_filters collate engine selected_indicator =
  (Returned
     (dropdown_options (map CInt (merge_sort Z.le (remove_dups (map year (incidence_data engine))))),
      dropdown_options (map CStr (merge_sort collate (remove_dups (map state (incidence_data engine)))))),
   {| incidence_data := incidence_data engine;
      statements := statements engine ++
        [ ("SELECT DISTINCT year FROM incidence_data ORDER BY year", ∅);
          ("SELECT DISTINCT state FROM incidence_data ORDER BY state", ∅) ] |}).
Proof.
  unfold update_filters, execute_distinct, run_distinct. cbn.
  by rewrite <- app_assoc.
Qed.

(** X14: the filter callback always returns, whatever indicator is
    selected.  Every option has its value as label.  The year options are
    the years of the table, each once, in strictly ascending order; the state
    options are the states of the table, each once, in the order of the
    collation.  The callback sends the two DISTINCT statements, without
    parameters, and leaves the table as it is. *)
Theorem update_filters_options engine (selected_indicator : option string) :
  ∃ years states ys ss,
    update_filters collate engine selected_indicator =
      (Returned (years, states),
       {| incidence_data := incidence_data engine;
          statements := statements engine ++
            [ ("SELECT DISTINCT year FROM incidence_data ORDER BY year", ∅);
              ("SELECT DISTINCT state FROM incidence_data ORDER BY state", ∅) ] |}) ∧
    Forall (λ o, label o = value o) (years ++ states) ∧
    map value years = map CInt ys ∧
    StronglySorted Z.lt ys ∧
    (∀ y, y ∈ ys ↔ y ∈ map year (incidence_data engine)) ∧
    map value states = map CStr ss ∧
    NoDup ss ∧
    (∀ s, s ∈ ss ↔ s ∈ map state (incidence_data engine)) ∧
    (Total collate → Sorted collate ss).
Proof.
  destruct (distinct_years_sorted (incidence_data engine)) as [Hsorted Hyears].
  destruct (distinct_states_sorted (incidence_data engine)) as (Hnd & Hstates & Hcoll).
  eexists _, _, _, _. split; [apply update_filters_unfold|].
  split; [|split; [|split; [exact Hsorted|split; [exact Hyears|
    split; [|split; [exact Hnd|split; [exact Hstates|exact Hcoll]]]]]]].
  - unfold dropdown_options. rewrite <- map_app. apply Forall_forall.
    by intros o (v & -> & _)%list_elem_of_fmap.
  - unfold dropdown_options. rewrite map_map. apply map_id.
  - unfold dropdown_options. rewrite map_map. apply map_id.
Qed.


End Filters.

